(** * aiogt: the graceful timeout timer

    A shallow embedding of [aiogt/__init__.py].  The timer object, the
    event loop it schedules its callback on and the [asyncio.Event] it
    releases are one record that every method threads through; a method
    that raises keeps the assignments it made before the [raise], as in
    Python. *)

From Stdlib Require Import Floats.PrimFloat ZArith Lia.
From stdpp Require Import base option list.

Local Open Scope Z_scope.

(** ** The event loop

    Only what the timer consumes of [asyncio.AbstractEventLoop]:
    [time()], [call_soon], [call_at] and [Handle.cancel()].  Handle
    objects live in a store and are named by their index, so that the
    reference kept in [_timeout_handler] and the loop's own reference
    are one object.  Python floats are IEEE binary64: [float]. *)

Module Loop.

Inductive When : Type :=
| Soon                (* call_soon: the next iteration of the loop *)
| At (t : float).     (* call_at(t, ...) *)

Record Handle : Type := mkHandle {
  when : When;
  cancelled : bool;   (* Handle._cancelled *)
  queued : bool       (* still in the loop's ready / scheduled queue *)
}.

Record t : Type := mk {
  now : float;              (* what time() returns *)
  handles : list Handle
}.

Definition time (l : t) : float := now l.

Definition call_soon (l : t) : t * nat :=
  (mk (now l) (handles l ++ [mkHandle Soon false true]), length (handles l)).

Definition call_at (d : float) (l : t) : t * nat :=
  (mk (now l) (handles l ++ [mkHandle (At d) false true]), length (handles l)).

Definition cancel_handle (h : Handle) : Handle :=
  mkHandle (when h) true (queued h).

(* Handle.cancel(): idempotent, never raises *)
Definition cancel (i : nat) (l : t) : t :=
  mk (now l) (alter cancel_handle i (handles l)).

Definition dequeue_handle (h : Handle) : Handle :=
  mkHandle (when h) (cancelled h) false.

(* the loop pops a handle from its queue, to run it or to drop it *)
Definition dequeue (i : nat) (l : t) : t :=
  mk (now l) (alter dequeue_handle i (handles l)).

Definition set_time (t' : float) (l : t) : t := mk t' (handles l).

(* a handle the loop will still run: queued and not cancelled *)
Definition liveb (l : t) (i : nat) : bool :=
  match handles l !! i with
  | Some h => queued h && negb (cancelled h)
  | None => false
  end.

Definition empty (t0 : float) : t := mk t0 [].

End Loop.

(** ** The timer *)

Inductive _State : Type := INIT | ENTER | TIMEOUT | EXIT.

#[global] Instance _State_eq_dec : EqDecision _State.
Proof. solve_decision. Defined.

(* class _State(IntEnum) *)
Definition value (s : _State) : Z :=
  match s with INIT => 0 | ENTER => 1 | TIMEOUT => 2 | EXIT => 3 end.

Definition state_eq (a b : _State) : bool := value a =? value b.
Definition state_ne (a b : _State) : bool := negb (value a =? value b).

(** The exceptions the module raises.  All but the assertion are
    [RuntimeError] in the source and differ by their message; the names
    are the specification's. *)
Inductive Error : Type :=
| UsageError                      (* "graceful timers should always be checked or waited upon ..." *)
| InvalidStateError (v : Z)       (* f"invalid state {self._state.value}" *)
| ClosedError                     (* "cannot reschedule after exit from context manager" *)
| ExpiredError                    (* "cannot reschedule expired timeout" *)
| NoDeadlineError                 (* "cannot shift timeout if deadline is not scheduled" *)
| AssertionError.                 (* assert self._state == _State.ENTER *)

(* what __aexit__ receives as exc_type *)
Inductive ExcType : Type :=
| CancelledError      (* asyncio.CancelledError *)
| OtherException.     (* any other exception class *)

Definition is_CancelledError (e : option ExcType) : bool :=
  match e with Some CancelledError => true | _ => false end.

Record GracefulTimeout : Type := mkTimer {
  _deadline : option float;
  _loop : Loop.t;
  _state : _State;
  _timeout_handler : option nat;   (* a handle of [_loop], by index *)
  _event : bool;                   (* asyncio.Event: its flag *)
  _checked : bool
}.

Inductive Result (A : Type) : Type :=
| Ok (a : A)
| Raise (e : Error).
Arguments Ok {A} a.
Arguments Raise {A} e.

(** A method: the object before, the object after and what the call
    returned or raised. *)
Definition M (A : Type) : Type := GracefulTimeout -> GracefulTimeout * Result A.

Definition ret {A} (a : A) : M A := fun self => (self, Ok a).
Definition raise {A} (e : Error) : M A := fun self => (self, Raise e).
Definition bind {A B} (m : M A) (k : A -> M B) : M B :=
  fun self =>
    match m self with
    | (self', Ok a) => k a self'
    | (self', Raise e) => (self', Raise e)
    end.
Definition get : M GracefulTimeout := fun self => (self, Ok self).
Definition modify (f : GracefulTimeout -> GracefulTimeout) : M unit :=
  fun self => (f self, Ok tt).

Declare Scope method_scope.
Delimit Scope method_scope with method.
Notation "x <- c ;; k" := (bind c (fun x => k))
  (at level 100, c at next level, right associativity) : method_scope.
Notation "c ;; k" := (bind c (fun _ => k))
  (at level 100, right associativity) : method_scope.
Local Open Scope method_scope.

Definition set_deadline (d : option float) (self : GracefulTimeout) :=
  mkTimer d (_loop self) (_state self) (_timeout_handler self) (_event self) (_checked self).
Definition set_loop (l : Loop.t) (self : GracefulTimeout) :=
  mkTimer (_deadline self) l (_state self) (_timeout_handler self) (_event self) (_checked self).
Definition set_state (s : _State) (self : GracefulTimeout) :=
  mkTimer (_deadline self) (_loop self) s (_timeout_handler self) (_event self) (_checked self).
Definition set_timeout_handler (h : option nat) (self : GracefulTimeout) :=
  mkTimer (_deadline self) (_loop self) (_state self) h (_event self) (_checked self).
Definition set_event (b : bool) (self : GracefulTimeout) :=
  mkTimer (_deadline self) (_loop self) (_state self) (_timeout_handler self) b (_checked self).
Definition set_checked (b : bool) (self : GracefulTimeout) :=
  mkTimer (_deadline self) (_loop self) (_state self) (_timeout_handler self) (_event self) b.

(* self._timeout_handler.cancel() on handle [h] *)
Definition handler_cancel (h : nat) : M unit :=
  modify (fun self => set_loop (Loop.cancel h (_loop self)) self).

(* self._loop.time() *)
Definition loop_time : M float :=
  fun self => (self, Ok (Loop.time (_loop self))).

(* self._loop.call_soon(self._on_timeout) *)
Definition loop_call_soon : M nat :=
  fun self => let (l, h) := Loop.call_soon (_loop self) in (set_loop l self, Ok h).

(* self._loop.call_at(deadline, self._on_timeout) *)
Definition loop_call_at (d : float) : M nat :=
  fun self => let (l, h) := Loop.call_at d (_loop self) in (set_loop l self, Ok h).

Definition _reject : M unit :=
  self <- get ;;
  match _timeout_handler self with
  | Some h => handler_cancel h ;; modify (set_timeout_handler None)
  | None => ret tt
  end.

Definition _do_exit (exc_type : option ExcType) : M unit :=
  self <- get ;;
  (if is_CancelledError exc_type && state_eq (_state self) TIMEOUT
   then modify (set_timeout_handler None)
   else ret tt) ;;
  self <- get ;;
  (if negb (_checked self) then raise UsageError else ret tt) ;;
  modify (set_state EXIT) ;;
  _reject ;;
  ret tt.

Definition _reschedule : M unit :=
  self <- get ;;
  (if state_eq (_state self) ENTER then ret tt else raise AssertionError) ;;
  match _deadline self with
  | None => ret tt
  | Some deadline =>
      now <- loop_time ;;
      (match _timeout_handler self with
       | Some h => handler_cancel h
       | None => ret tt
       end) ;;
      if (deadline <=? now)%float
      then (h <- loop_call_soon ;; modify (set_timeout_handler (Some h)))
      else (h <- loop_call_at deadline ;; modify (set_timeout_handler (Some h)))
  end.

Definition _do_enter : M unit :=
  self <- get ;;
  (if state_ne (_state self) INIT
   then raise (InvalidStateError (value (_state self)))
   else ret tt) ;;
  modify (set_state ENTER) ;;
  _reschedule.

Definition update (deadline : float) : M unit :=
  self <- get ;;
  (if state_eq (_state self) EXIT then raise ClosedError else ret tt) ;;
  (if state_eq (_state self) TIMEOUT then raise ExpiredError else ret tt) ;;
  (match _timeout_handler self with
   | Some h => handler_cancel h
   | None => ret tt
   end) ;;
  modify (set_deadline (Some deadline)) ;;
  if state_ne (_state self) INIT then _reschedule else ret tt.

Definition shift (delay : float) : M unit :=
  self <- get ;;
  match _deadline self with
  | None => raise NoDeadlineError
  | Some deadline => update (deadline + delay)%float
  end.

Definition _on_timeout : M unit :=
  modify (set_state TIMEOUT) ;;
  modify (set_event true) ;;       (* self._event.set() *)
  modify (set_timeout_handler None).

Definition __aenter__ : M unit := _do_enter.

Definition __aexit__ (exc_type : option ExcType) : M unit :=
  _do_exit exc_type ;; ret tt.

(* GracefulTimeout.__init__(deadline, loop) *)
Definition __init__ (deadline : option float) (loop : Loop.t)
  : GracefulTimeout * Result unit :=
  let self := mkTimer None loop INIT None false false in
  match deadline with
  | None => (self, Ok tt)
  | Some d => update d self
  end.

Definition graceful_timeout (delay : option float) (loop : Loop.t)
  : GracefulTimeout * Result unit :=
  match delay with
  | Some d => __init__ (Some (Loop.time loop + d)%float) loop
  | None => __init__ None loop
  end.

Definition graceful_timeout_at (deadline : option float) (loop : Loop.t)
  : GracefulTimeout * Result unit :=
  __init__ deadline loop.

(** ** Coroutines

    [wait] and [is_running] are [async def]: a call runs up to its first
    suspension, and the loop resumes it later on the object as it is
    then.  [__aenter__] and [__aexit__] never suspend and are methods. *)

Inductive Suspension : Type :=
| NextCycle       (* a bare [yield]: resumed at the next iteration of the loop *)
| UntilEvent.     (* parked in Event.wait() until the event is set *)

#[local] Unset Elimination Schemes.
Inductive Coro (R : Type) : Type :=
| Done (r : Result R)
| Suspended (on : Suspension) (k : GracefulTimeout -> GracefulTimeout * Coro R).
#[local] Set Elimination Schemes.
Arguments Done {R} r.
Arguments Suspended {R} on k.

(* whether the loop resumes a coroutine suspended on [on] *)
Definition ready (on : Suspension) (self : GracefulTimeout) : bool :=
  match on with
  | NextCycle => true
  | UntilEvent => _event self
  end.

(* the loop resumes [c] on the object [self] *)
Definition resume {R} (c : Coro R) (self : GracefulTimeout)
  : GracefulTimeout * Coro R :=
  match c with
  | Done r => (self, Done r)
  | Suspended _ k => k self
  end.

(* number of suspensions of [c] when it is resumed on [self] each time *)
Fixpoint suspensions {R} (fuel : nat) (c : Coro R) (self : GracefulTimeout) : nat :=
  match fuel, c with
  | O, _ => O
  | _, Done _ => O
  | S n, Suspended _ k => S (suspensions n (snd (k self)) (fst (k self)))
  end.

(* @coroutine def _s_heartbeat(): yield *)
Definition _s_heartbeat {R} (k : GracefulTimeout -> GracefulTimeout * Coro R)
  : Coro R :=
  Suspended NextCycle k.

(* asyncio.Event.wait() on self._event *)
Definition event_wait (self : GracefulTimeout) : GracefulTimeout * Coro bool :=
  if _event self
  then (self, Done (Ok true))
  else (self, Suspended UntilEvent (fun self' => (self', Done (Ok true)))).

Definition wait (self : GracefulTimeout) : GracefulTimeout * Coro bool :=
  event_wait (set_checked true self).

Definition is_running (self : GracefulTimeout) : GracefulTimeout * Coro bool :=
  (self,
   _s_heartbeat (fun self' =>
     (self', Done (Ok (negb (state_ne (_state self') TIMEOUT)))))).

(** ** The timer and its loop as a transition system

    A step is a call on the timer, the resumption of a suspended
    [wait] or [is_running], or the loop at work.  The loop may run any
    handle that is queued and not cancelled (a cancelled handle is
    never run, only dropped); when it judges a handle due is left open,
    so what holds of every step holds under any scheduling of the
    callback. *)

Inductive Action : Type :=
| Enter
| Exit (exc_type : option ExcType)
| Update (deadline : float)
| Shift (delay : float)
| Wait
| WaitResumed
| IsRunning
| IsRunningResumed
| Fire (h : nat)          (* the loop runs handle h: the callback _on_timeout *)
| Drop (h : nat)          (* the loop discards the cancelled handle h *)
| Clock (t' : float).     (* time passes *)

Inductive step : GracefulTimeout -> Action -> GracefulTimeout -> Prop :=
| step_enter self :
    step self Enter (fst (__aenter__ self))
| step_exit self exc_type :
    step self (Exit exc_type) (fst (__aexit__ exc_type self))
| step_update self d :
    step self (Update d) (fst (update d self))
| step_shift self delay :
    step self (Shift delay) (fst (shift delay self))
| step_wait self :
    step self Wait (fst (wait self))
| step_wait_resumed self0 on k self :
    snd (wait self0) = Suspended on k ->
    ready on self = true ->
    step self WaitResumed (fst (k self))
| step_is_running self :
    step self IsRunning (fst (is_running self))
| step_is_running_resumed self0 on k self :
    snd (is_running self0) = Suspended on k ->
    ready on self = true ->
    step self IsRunningResumed (fst (k self))
| step_fire self h :
    Loop.liveb (_loop self) h = true ->
    step self (Fire h)
         (fst (_on_timeout (set_loop (Loop.dequeue h (_loop self)) self)))
| step_drop self h hd :
    Loop.handles (_loop self) !! h = Some hd ->
    Loop.cancelled hd = true ->
    step self (Drop h) (set_loop (Loop.dequeue h (_loop self)) self)
| step_clock self t' :
    (Loop.now (_loop self) <=? t')%float = true ->
    step self (Clock t') (set_loop (Loop.set_time t' (_loop self)) self).

Inductive reachable : GracefulTimeout -> Prop :=
| reachable_init deadline t0 :
    reachable (fst (__init__ deadline (Loop.empty t0)))
| reachable_step self a self' :
    reachable self -> step self a self' -> reachable self'.

(** The invariant of the data model: a pending callback handle is held
    only by an entered timer with a deadline, and the handle is one the
    loop has neither run nor dropped. *)
Definition pending_ok (self : GracefulTimeout) : Prop :=
  forall h, _timeout_handler self = Some h ->
    _state self = ENTER /\ is_Some (_deadline self) /\
    Loop.liveb (_loop self) h = true.

(** The loop holds no callback of the timer besides the pending one. *)
Definition sole_handle (self : GracefulTimeout) : Prop :=
  forall h, Loop.liveb (_loop self) h = true -> _timeout_handler self = Some h.

(** ** What rescheduling yields *)

(* the loop of [self] once the pending handle, if any, is cancelled *)
Definition loop_without_pending (self : GracefulTimeout) : Loop.t :=
  match _timeout_handler self with
  | Some h => Loop.cancel h (_loop self)
  | None => _loop self
  end.

(* when a callback for deadline [d] is scheduled at loop time [now] *)
Definition fire_time (d now : float) : Loop.When :=
  if (d <=? now)%float then Loop.Soon else Loop.At d.

(* [self] with deadline [d] and a fresh handle for it in the loop *)
Definition scheduled (d : float) (self : GracefulTimeout) : GracefulTimeout :=
  let l := loop_without_pending self in
  mkTimer (Some d)
          (Loop.mk (Loop.now l)
             (Loop.handles l
                ++ [Loop.mkHandle (fire_time d (Loop.now l)) false true]))
          (_state self)
          (Some (length (Loop.handles (_loop self))))
          (_event self) (_checked self).

(** ** Further invariants of the reachable states *)

(** The event is set by the fire callback and by nothing else: an
    expired timer has it set, and a set event means the timer has
    expired (and may have been closed since) and had a deadline. *)
Definition event_ok (self : GracefulTimeout) : Prop :=
  (_state self = TIMEOUT -> _event self = true) /\
  (_event self = true ->
   (_state self = TIMEOUT \/ _state self = EXIT) /\ is_Some (_deadline self)).

(** An entered timer with a deadline holds a callback the loop will
    run, registered for that deadline: at once ([call_soon]) or at the
    deadline itself ([call_at]). *)
Definition armed (self : GracefulTimeout) : Prop :=
  _state self = ENTER ->
  forall d, _deadline self = Some d ->
  exists h hd,
    _timeout_handler self = Some h /\
    Loop.handles (_loop self) !! h = Some hd /\
    Loop.queued hd = true /\ Loop.cancelled hd = false /\
    (Loop.when hd = Loop.Soon \/ Loop.when hd = Loop.At d).

(** ** Sample runs *)

Module Sample.

(* async with graceful_timeout_at(None) on a loop at time 0 *)
Definition never : GracefulTimeout :=
  fst (graceful_timeout_at None (Loop.empty 0%float)).
Definition never_entered : GracefulTimeout := fst (__aenter__ never).

(* graceful_timeout(10) on a loop at time 5 *)
Definition ten : GracefulTimeout :=
  fst (graceful_timeout (Some 10%float) (Loop.empty 5%float)).
Definition ten_entered : GracefulTimeout := fst (__aenter__ ten).
Definition ten_fired : GracefulTimeout :=
  fst (_on_timeout (set_loop (Loop.dequeue 0 (_loop ten_entered)) ten_entered)).
Definition ten_waited : GracefulTimeout := fst (wait ten_entered).
Definition ten_closed : GracefulTimeout := fst (__aexit__ None ten_waited).

(* a deadline already in the past when the scope is entered *)
Definition past_entered : GracefulTimeout :=
  fst (__aenter__ (fst (graceful_timeout_at (Some 1%float) (Loop.empty 5%float)))).

End Sample.

(** * Properties *)

(* closes a goal [pending_ok] of an object without a handle *)
Ltac no_handler :=
  let h := fresh "h" in
  let Hh := fresh "Hh" in
  intros h Hh; cbn in Hh; congruence.

(** ** Polling and waiting *)

Lemma not_state_ne a b : negb (state_ne a b) = state_eq a b.
Proof. unfold state_ne, state_eq. apply negb_involutive. Qed.

(** C1 (a defect of the code).  [is_running] changes nothing,
    suspends once on the bare [yield] of [_s_heartbeat], and when the
    loop resumes it returns [not self._state != TIMEOUT], which is
    [self._state == TIMEOUT]: true exactly when the timer HAS expired.
    On an entered timer without a deadline it therefore answers
    [False], where the specification and the docstring's "still
    active" promise [True]; on the fired timer it answers [True]. *)
Theorem C1_is_running_answers_expired :
  (forall self,
      fst (is_running self) = self /\
      exists k,
        snd (is_running self) = Suspended NextCycle k /\
        forall self',
          k self' = (self', Done (Ok (state_eq (_state self') TIMEOUT))) /\
          suspensions 5 (snd (is_running self)) self' = 1%nat) /\
  _state Sample.never_entered = ENTER /\
  _deadline Sample.never_entered = None /\
  resume (snd (is_running Sample.never_entered)) Sample.never_entered
  = (Sample.never_entered, Done (Ok false)) /\
  resume (snd (is_running Sample.ten_fired)) Sample.ten_fired
  = (Sample.ten_fired, Done (Ok true)).
Proof.
  split; [| repeat split].
  intros self. split; [reflexivity |].
  eexists. split; [reflexivity |].
  intros self'. cbn. rewrite not_state_ne. split; reflexivity.
Qed.

(** C2 (a defect of the code).  [is_running] never assigns
    [_checked]; only [wait] does.  A scope that polls [is_running] and
    then exits cleanly raises the "should always be checked or waited
    upon" error, although the docstrings present that loop as the
    intended use. *)
Theorem C2_is_running_does_not_mark_checked :
  (forall self self',
      _checked (fst (is_running self)) = _checked self /\
      _checked (fst (resume (snd (is_running self)) self')) = _checked self') /\
  (let polled :=
     fst (resume (snd (is_running Sample.never_entered))
                 (fst (is_running Sample.never_entered))) in
   _checked polled = false /\
   snd (__aexit__ None polled) = Raise UsageError /\
   _state (fst (__aexit__ None polled)) = ENTER) /\
  snd (__aexit__ None Sample.ten_waited) = Ok tt.
Proof.
  split; [| split]; [| repeat split | reflexivity].
  intros self self'. split; reflexivity.
Qed.

(** C9.  [wait] raises in no state: it sets [_checked], returns [True]
    at once when the event is already set, and otherwise parks on the
    event and returns [True] when resumed; it is resumed exactly when
    the event is set, which the fire callback does. *)
Theorem C9_wait_never_raises :
  forall self,
    fst (wait self) = set_checked true self /\
    _checked (fst (wait self)) = true /\
    snd (wait self)
    = (if _event self
       then Done (Ok true)
       else Suspended UntilEvent (fun self' => (self', Done (Ok true)))) /\
    (forall self', ready UntilEvent self' = _event self') /\
    (forall self', _event (fst (_on_timeout self')) = true) /\
    (forall self', resume (snd (wait self)) self' = (self', Done (Ok true))).
Proof.
  intros self. unfold wait, event_wait.
  destruct self as [dl l st h ev ck]; cbn.
  destruct ev; cbn; repeat split; reflexivity.
Qed.

(** ** Leaving the scope *)

(** C3, refuted as stated: with a cancellation propagating, an entered
    timer that was never observed still raises the usage error on exit,
    also when the deadline has already fired. *)
Lemma C3_usage_error_despite_cancellation :
  snd (__aexit__ (Some CancelledError) Sample.ten_entered) = Raise UsageError /\
  _state Sample.ten_fired = TIMEOUT /\
  snd (__aexit__ (Some CancelledError) Sample.ten_fired) = Raise UsageError /\
  snd (__aexit__ (Some OtherException) Sample.ten_entered) = Raise UsageError.
Proof. repeat split. Qed.

(** C3, amended.  Whether exit raises depends on [_checked] alone, not
    on the exception in flight: an unobserved timer raises the usage
    error and keeps its state; an observed one raises nothing, whatever
    is propagating and whatever the state, and ends closed with no
    pending handle. *)
Theorem C3_exit_raises_iff_unobserved :
  forall self exc_type,
    if _checked self
    then snd (__aexit__ exc_type self) = Ok tt /\
         _state (fst (__aexit__ exc_type self)) = EXIT /\
         _timeout_handler (fst (__aexit__ exc_type self)) = None
    else snd (__aexit__ exc_type self) = Raise UsageError /\
         _state (fst (__aexit__ exc_type self)) = _state self.
Proof.
  intros [dl l st h ev ck] exc_type.
  destruct ck, st, h, exc_type as [[]|]; cbn; repeat split; reflexivity.
Qed.

(** ** Scheduling the deadline *)

Lemma alter_cancel_twice h (hs : list Loop.Handle) :
  alter Loop.cancel_handle h (alter Loop.cancel_handle h hs)
  = alter Loop.cancel_handle h hs.
Proof.
  rewrite list_alter_alter_eq. apply list_alter_ext; [| reflexivity].
  intros [w c q] _. reflexivity.
Qed.

Lemma reschedule_entered self d :
  _state self = ENTER ->
  _deadline self = Some d ->
  _reschedule self = (scheduled d self, Ok tt).
Proof.
  destruct self as [dl l st h ev ck]; cbn. intros -> ->.
  unfold scheduled, loop_without_pending, fire_time, Loop.time; cbn.
  destruct h as [h|]; cbn; unfold Loop.time; cbn;
    destruct (d <=? Loop.now l)%float; cbn;
    rewrite ?length_alter; reflexivity.
Qed.

Lemma update_entered self d :
  _state self = ENTER ->
  update d self = (scheduled d self, Ok tt).
Proof.
  destruct self as [dl l st h ev ck]; cbn. intros ->.
  unfold scheduled, loop_without_pending, fire_time, Loop.time; cbn.
  destruct h as [h|]; cbn; unfold Loop.time; cbn;
    destruct (d <=? Loop.now l)%float; cbn;
    rewrite ?length_alter, ?alter_cancel_twice; reflexivity.
Qed.

Lemma loop_without_pending_length self :
  length (Loop.handles (loop_without_pending self))
  = length (Loop.handles (_loop self)).
Proof.
  unfold loop_without_pending. destruct (_timeout_handler self); cbn;
    [apply length_alter | reflexivity].
Qed.

Lemma scheduled_lookup_new d self :
  Loop.handles (_loop (scheduled d self)) !! length (Loop.handles (_loop self))
  = Some (Loop.mkHandle (fire_time d (Loop.now (loop_without_pending self)))
            false true).
Proof.
  unfold scheduled; cbn. apply list_lookup_middle.
  symmetry. apply loop_without_pending_length.
Qed.

Lemma loop_without_pending_now self :
  Loop.now (loop_without_pending self) = Loop.now (_loop self).
Proof. unfold loop_without_pending. destruct (_timeout_handler self); reflexivity. Qed.

(** C5.  On an entered timer [_reschedule] does nothing when there is
    no deadline.  With a deadline [d] it cancels the pending handle, if
    any, and registers one new handle, due at the next iteration of the
    loop ([call_soon]) when [d <= now] and at [d] ([call_at])
    otherwise; the callback is only registered: the state is still
    [ENTER] and the event is untouched when [_reschedule] returns. *)
Theorem C5_reschedule_registers_callback self :
  _state self = ENTER ->
  match _deadline self with
  | None => _reschedule self = (self, Ok tt)
  | Some d =>
      _reschedule self = (scheduled d self, Ok tt) /\
      (forall h hd,
          _timeout_handler self = Some h ->
          Loop.handles (_loop self) !! h = Some hd ->
          Loop.handles (_loop (scheduled d self)) !! h
          = Some (Loop.cancel_handle hd)) /\
      (exists h',
          _timeout_handler (scheduled d self) = Some h' /\
          Loop.handles (_loop (scheduled d self)) !! h'
          = Some (Loop.mkHandle
                    (if (d <=? Loop.time (_loop self))%float
                     then Loop.Soon else Loop.At d)
                    false true)) /\
      _state (scheduled d self) = ENTER /\
      _event (scheduled d self) = _event self
  end.
Proof.
  intros Hst. destruct (_deadline self) as [d|] eqn:Hd.
  - split; [apply reschedule_entered; assumption |].
    split; [| split; [| split; [exact Hst | reflexivity]]].
    + intros h hd Hh Hl. unfold scheduled, loop_without_pending; cbn.
      rewrite Hh; cbn.
      rewrite lookup_app_l
        by (rewrite length_alter; eapply lookup_lt_Some; eassumption).
      rewrite list_lookup_alter_eq, Hl. reflexivity.
    + eexists. split; [reflexivity |].
      rewrite scheduled_lookup_new, loop_without_pending_now. reflexivity.
  - destruct self as [dl l st h ev ck]; cbn in *. subst. reflexivity.
Qed.

Lemma C5_reschedule_witness :
  _reschedule Sample.ten_entered
  = (scheduled 15%float Sample.ten_entered, Ok tt) /\
  _reschedule Sample.past_entered
  = (scheduled 1%float Sample.past_entered, Ok tt) /\
  _reschedule Sample.never_entered = (Sample.never_entered, Ok tt).
Proof.
  split; [| split].
  - exact (proj1 (C5_reschedule_registers_callback Sample.ten_entered eq_refl)).
  - exact (proj1 (C5_reschedule_registers_callback Sample.past_entered eq_refl)).
  - exact (C5_reschedule_registers_callback Sample.never_entered eq_refl).
Defined.

(** ** Changing the deadline *)

(** C6.  With a deadline [d], [shift delay] is [update (d + delay)]:
    the same object and the same outcome, so the same deadline and the
    same registered fire time; on an entered timer that is the deadline
    [d + delay] and a fresh handle due as [fire_time] says.  Without a
    deadline [shift] raises its own error on an untouched object,
    whatever [update] would have done in that state. *)
Theorem C6_shift_is_update self delay :
  (_deadline self = None ->
   shift delay self = (self, Raise NoDeadlineError)) /\
  (forall d, _deadline self = Some d ->
     shift delay self = update (d + delay)%float self /\
     (_state self = ENTER ->
      shift delay self = (scheduled (d + delay)%float self, Ok tt) /\
      _deadline (fst (shift delay self)) = Some (d + delay)%float /\
      exists h,
        _timeout_handler (fst (shift delay self)) = Some h /\
        Loop.when <$> Loop.handles (_loop (fst (shift delay self))) !! h
        = Some (fire_time (d + delay)%float (Loop.time (_loop self))))).
Proof.
  split.
  - intros Hd. destruct self as [dl l st h ev ck]; cbn in *. subst. reflexivity.
  - intros d Hd.
    assert (Heq : shift delay self = update (d + delay)%float self).
    { destruct self as [dl l st h ev ck]; cbn in *. subst. reflexivity. }
    split; [exact Heq |].
    intros Hst. rewrite Heq, (update_entered _ _ Hst); cbn.
    split; [reflexivity | split; [reflexivity |]].
    eexists. split; [reflexivity |].
    pose proof (scheduled_lookup_new (d + delay)%float self) as Hnew.
    unfold scheduled in Hnew; cbn in Hnew. rewrite Hnew; cbn.
    rewrite loop_without_pending_now. reflexivity.
Qed.

Lemma C6_shift_witness :
  shift 2.5%float Sample.never = (Sample.never, Raise NoDeadlineError) /\
  shift 2.5%float Sample.ten_entered = update 17.5%float Sample.ten_entered /\
  shift (-20)%float Sample.ten_entered
  = (scheduled (-5)%float Sample.ten_entered, Ok tt).
Proof.
  split; [| split].
  - exact (proj1 (C6_shift_is_update Sample.never 2.5%float) eq_refl).
  - exact (proj1 (proj2 (C6_shift_is_update Sample.ten_entered 2.5%float)
                    15%float eq_refl)).
  - exact (proj1 (proj2 (proj2 (C6_shift_is_update Sample.ten_entered (-20)%float)
                           15%float eq_refl) eq_refl)).
Defined.

Lemma update_rejected self d :
  (_state self = TIMEOUT -> update d self = (self, Raise ExpiredError)) /\
  (_state self = EXIT -> update d self = (self, Raise ClosedError)).
Proof.
  destruct self as [dl l st h ev ck]; cbn.
  split; intros ->; reflexivity.
Qed.

(** C7.  [update] on an expired timer raises the "cannot reschedule
    expired timeout" error and on a closed one the "cannot reschedule
    after exit from context manager" error, for every new deadline. *)
Theorem C7_update_after_expiry_or_close self d :
  (_state self = TIMEOUT -> update d self = (self, Raise ExpiredError)) /\
  (_state self = EXIT -> update d self = (self, Raise ClosedError)).
Proof.
  destruct self as [dl l st h ev ck]; cbn.
  split; intros Hst; subst st; cbn; reflexivity.
Qed.

Lemma C7_update_witness :
  update 99%float Sample.ten_fired = (Sample.ten_fired, Raise ExpiredError) /\
  update 99%float Sample.ten_closed = (Sample.ten_closed, Raise ClosedError).
Proof.
  split.
  - exact (proj1 (C7_update_after_expiry_or_close Sample.ten_fired 99%float) eq_refl).
  - exact (proj2 (C7_update_after_expiry_or_close Sample.ten_closed 99%float) eq_refl).
Defined.

Lemma update_raises_unchanged self d e :
  snd (update d self) = Raise e -> fst (update d self) = self.
Proof.
  destruct (_state self) eqn:Hst.
  - destruct self as [dl l st h ev ck]; cbn in *; subst.
    destruct h; cbn; discriminate.
  - rewrite (update_entered _ _ Hst); cbn. discriminate.
  - rewrite (proj1 (update_rejected self d) Hst). reflexivity.
  - rewrite (proj2 (update_rejected self d) Hst). reflexivity.
Qed.

Lemma shift_raises_unchanged self delay e :
  snd (shift delay self) = Raise e -> fst (shift delay self) = self.
Proof.
  destruct (_deadline self) as [d|] eqn:Hd.
  - replace (shift delay self) with (update (d + delay)%float self)
      by (destruct self; cbn in *; subst; reflexivity).
    apply update_raises_unchanged.
  - replace (shift delay self) with (self, Raise (A:=unit) NoDeadlineError)
      by (destruct self; cbn in *; subst; reflexivity).
    reflexivity.
Qed.

(** C10.  A call of [update] or [shift] that raises leaves the whole
    object as it was: the deadline, the state, the pending handle and
    the loop's handles with it.  (The assertion in [_reschedule] cannot
    fail from [update]: past the two guards a state other than [INIT]
    is [ENTER].) *)
Theorem C10_failed_mutation_changes_nothing self d delay e :
  (snd (update d self) = Raise e ->
   fst (update d self) = self /\ (e = ClosedError \/ e = ExpiredError)) /\
  (snd (shift delay self) = Raise e ->
   fst (shift delay self) = self /\
   (e = ClosedError \/ e = ExpiredError \/ e = NoDeadlineError)).
Proof.
  split; intros He.
  - split; [eapply update_raises_unchanged; eassumption |].
    destruct (_state self) eqn:Hst.
    + destruct self as [dl l st h ev ck]; cbn in *; subst.
      destruct h; cbn in He; discriminate.
    + rewrite (update_entered _ _ Hst) in He. discriminate.
    + rewrite (proj1 (update_rejected self d) Hst) in He. cbn in He. right. congruence.
    + rewrite (proj2 (update_rejected self d) Hst) in He. cbn in He. left. congruence.
  - split; [eapply shift_raises_unchanged; eassumption |].
    destruct (_deadline self) as [d'|] eqn:Hd.
    + replace (shift delay self) with (update (d' + delay)%float self) in He
        by (destruct self; cbn in *; subst; reflexivity).
      destruct (_state self) eqn:Hst.
      * destruct self as [dl l st h ev ck]; cbn in *; subst.
        destruct h; cbn in He; discriminate.
      * rewrite (update_entered _ _ Hst) in He. discriminate.
      * rewrite (proj1 (update_rejected self _) Hst) in He. cbn in He. right; left. congruence.
      * rewrite (proj2 (update_rejected self _) Hst) in He. cbn in He. left. congruence.
    + replace (shift delay self) with (self, Raise (A:=unit) NoDeadlineError) in He
        by (destruct self; cbn in *; subst; reflexivity).
      right; right. cbn in He. congruence.
Qed.

Lemma C10_failed_mutation_witness :
  (fst (update 1%float Sample.ten_closed) = Sample.ten_closed /\
   (ClosedError = ClosedError \/ ClosedError = ExpiredError)) /\
  (fst (shift 1%float Sample.ten_fired) = Sample.ten_fired /\
   (ExpiredError = ClosedError \/ ExpiredError = ExpiredError
    \/ ExpiredError = NoDeadlineError)).
Proof.
  split.
  - exact (proj1 (C10_failed_mutation_changes_nothing
                    Sample.ten_closed 1%float 1%float ClosedError) eq_refl).
  - exact (proj2 (C10_failed_mutation_changes_nothing
                    Sample.ten_fired 1%float 1%float ExpiredError) eq_refl).
Defined.

(** ** The pending handle *)

Section LiveHandles.

Implicit Types (l : Loop.t) (h : nat).

Lemma liveb_cancel l h h' :
  Loop.liveb (Loop.cancel h l) h'
  = if decide (h = h') then false else Loop.liveb l h'.
Proof.
  unfold Loop.liveb, Loop.cancel; cbn. rewrite list_lookup_alter.
  case_decide; [subst | reflexivity].
  destruct (Loop.handles l !! h') as [[w c q]|]; cbn; [| reflexivity].
  apply andb_false_r.
Qed.

Lemma liveb_dequeue l h h' :
  Loop.liveb (Loop.dequeue h l) h'
  = if decide (h = h') then false else Loop.liveb l h'.
Proof.
  unfold Loop.liveb, Loop.dequeue; cbn. rewrite list_lookup_alter.
  case_decide; [subst | reflexivity].
  destruct (Loop.handles l !! h') as [[w c q]|]; reflexivity.
Qed.

Lemma liveb_cancelled l h hd :
  Loop.handles l !! h = Some hd -> Loop.cancelled hd = true ->
  Loop.liveb l h = false.
Proof.
  intros Hl Hc. unfold Loop.liveb. rewrite Hl, Hc. apply andb_false_r.
Qed.

Lemma liveb_snoc now (hs : list Loop.Handle) w h :
  Loop.liveb (Loop.mk now (hs ++ [Loop.mkHandle w false true])) h
  = if decide (h = length hs) then true else Loop.liveb (Loop.mk now hs) h.
Proof.
  unfold Loop.liveb; cbn. case_decide as Hh.
  - subst. rewrite list_lookup_middle by reflexivity. reflexivity.
  - destruct (decide (h < length hs)%nat) as [Hlt|Hge].
    + rewrite lookup_app_l by assumption. reflexivity.
    + rewrite !lookup_ge_None_2; [reflexivity | lia |].
      rewrite length_app; cbn. lia.
Qed.

End LiveHandles.

Lemma no_live_without_pending self :
  sole_handle self ->
  forall h, Loop.liveb (loop_without_pending self) h = false.
Proof.
  intros Hsole h. unfold loop_without_pending.
  destruct (_timeout_handler self) as [h0|] eqn:Hh.
  - rewrite liveb_cancel. case_decide as Hne; [reflexivity |].
    destruct (Loop.liveb (_loop self) h) eqn:Hl; [| reflexivity].
    apply Hsole in Hl. congruence.
  - destruct (Loop.liveb (_loop self) h) eqn:Hl; [| reflexivity].
    apply Hsole in Hl. congruence.
Qed.

Lemma scheduled_liveb d self h :
  Loop.liveb (_loop (scheduled d self)) h
  = if decide (h = length (Loop.handles (_loop self))) then true
    else Loop.liveb (loop_without_pending self) h.
Proof.
  unfold scheduled; cbn. rewrite liveb_snoc, loop_without_pending_length.
  case_decide; [reflexivity |].
  destruct (loop_without_pending self); reflexivity.
Qed.

Lemma pending_ok_scheduled d self :
  _state self = ENTER -> pending_ok (scheduled d self).
Proof.
  intros Hst h Hh. cbn in Hh. injection Hh as <-.
  split; [exact Hst |]. split; [eexists; reflexivity |].
  rewrite scheduled_liveb. case_decide; [reflexivity | contradiction].
Qed.

Lemma sole_handle_scheduled d self :
  sole_handle self -> sole_handle (scheduled d self).
Proof.
  intros Hsole h Hl. rewrite scheduled_liveb in Hl.
  case_decide as Hh; [subst; reflexivity |].
  rewrite (no_live_without_pending _ Hsole) in Hl. discriminate.
Qed.

Lemma pending_ok_idle self :
  pending_ok self -> _state self <> ENTER -> _timeout_handler self = None.
Proof.
  intros Hp Hst. destruct (_timeout_handler self) as [h|] eqn:Hh; [| reflexivity].
  destruct (Hp h Hh) as [? _]. contradiction.
Qed.

(** What each method does to the object, by the state it finds. *)

Lemma enter_rejected self :
  _state self <> INIT ->
  __aenter__ self = (self, Raise (InvalidStateError (value (_state self)))).
Proof.
  destruct self as [dl l st h ev ck]; cbn. destruct st; cbn; intros Hst;
    [contradiction | reflexivity ..].
Qed.

Lemma enter_idle self :
  _state self = INIT ->
  __aenter__ self = _reschedule (set_state ENTER self).
Proof.
  destruct self as [dl l st h ev ck]; cbn. intros ->. reflexivity.
Qed.

Lemma update_idle self d :
  _state self = INIT -> _timeout_handler self = None ->
  update d self = (set_deadline (Some d) self, Ok tt).
Proof.
  destruct self as [dl l st h ev ck]; cbn. intros -> ->. reflexivity.
Qed.

Lemma exit_result self exc_type :
  pending_ok self ->
  fst (__aexit__ exc_type self)
  = if _checked self
    then set_timeout_handler None
           (set_loop (loop_without_pending self) (set_state EXIT self))
    else self.
Proof.
  intros Hp.
  destruct (decide (_state self = ENTER)) as [Hst|Hst].
  - destruct self as [dl l st h ev ck]; cbn in *; subst.
    destruct ck, h, exc_type as [[]|]; reflexivity.
  - pose proof (pending_ok_idle _ Hp Hst) as Hh.
    destruct self as [dl l st h ev ck]; cbn in *; subst.
    destruct ck, st, exc_type as [[]|]; reflexivity.
Qed.

Lemma wait_continuation self0 on k :
  snd (wait self0) = Suspended on k ->
  forall self, fst (k self) = self.
Proof.
  unfold wait, event_wait. destruct (_event _); cbn; intros H; [discriminate |].
  injection H as _ <-. reflexivity.
Qed.

Lemma is_running_continuation self0 on k :
  snd (is_running self0) = Suspended on k ->
  forall self, fst (k self) = self.
Proof.
  unfold is_running, _s_heartbeat; cbn. intros H.
  injection H as _ <-. reflexivity.
Qed.

Lemma reschedule_no_deadline self :
  _state self = ENTER -> _deadline self = None ->
  _reschedule self = (self, Ok tt).
Proof.
  destruct self as [dl l st h ev ck]; cbn. intros -> ->. reflexivity.
Qed.

Lemma shift_unfold self delay :
  shift delay self
  = match _deadline self with
    | None => (self, Raise NoDeadlineError)
    | Some d => update (d + delay)%float self
    end.
Proof. destruct self as [dl l st h ev ck]; cbn. destruct dl; reflexivity. Qed.

Lemma wait_object self : fst (wait self) = set_checked true self.
Proof. unfold wait, event_wait. destruct (_event _); reflexivity. Qed.

Lemma pending_ok_enter self :
  pending_ok self -> pending_ok (fst (__aenter__ self)).
Proof.
  intros Hp. destruct (decide (_state self = INIT)) as [Hi|Hn].
  - assert (Hh : _timeout_handler self = None)
      by (apply pending_ok_idle; [assumption | congruence]).
    rewrite enter_idle by assumption.
    destruct (_deadline self) as [d|] eqn:Hd.
    + rewrite (reschedule_entered (set_state ENTER self) d eq_refl Hd); cbn.
      apply pending_ok_scheduled. reflexivity.
    + rewrite (reschedule_no_deadline (set_state ENTER self) eq_refl Hd); cbn.
      no_handler.
  - rewrite enter_rejected by assumption. exact Hp.
Qed.

Lemma pending_ok_exit self exc_type :
  pending_ok self -> pending_ok (fst (__aexit__ exc_type self)).
Proof.
  intros Hp. rewrite exit_result by assumption.
  destruct (_checked self); [no_handler | exact Hp].
Qed.

Lemma pending_ok_update self d :
  pending_ok self -> pending_ok (fst (update d self)).
Proof.
  intros Hp. destruct (_state self) eqn:Hst.
  - assert (Hh : _timeout_handler self = None)
      by (apply pending_ok_idle; [assumption | congruence]).
    rewrite update_idle by assumption; cbn. no_handler.
  - rewrite update_entered by assumption; cbn.
    apply pending_ok_scheduled. assumption.
  - rewrite (proj1 (update_rejected self d) Hst). exact Hp.
  - rewrite (proj2 (update_rejected self d) Hst). exact Hp.
Qed.

Lemma pending_ok_shift self delay :
  pending_ok self -> pending_ok (fst (shift delay self)).
Proof.
  intros Hp. rewrite shift_unfold.
  destruct (_deadline self); [apply pending_ok_update | ]; exact Hp.
Qed.

Lemma pending_ok_step self a self' :
  pending_ok self -> step self a self' -> pending_ok self'.
Proof.
  intros Hp Hstep.
  destruct Hstep as [self | self exc | self d | self delay | self
                    | self0 on k self Hk _ | self | self0 on k self Hk _
                    | self h Hlive | self h hd Hl Hc | self t' _].
  - apply pending_ok_enter, Hp.
  - apply pending_ok_exit, Hp.
  - apply pending_ok_update, Hp.
  - apply pending_ok_shift, Hp.
  - rewrite wait_object. exact Hp.
  - rewrite (wait_continuation _ _ _ Hk). exact Hp.
  - exact Hp.
  - rewrite (is_running_continuation _ _ _ Hk). exact Hp.
  - cbn. no_handler.
  - intros h0 Hh0. destruct (Hp h0 Hh0) as (Hst & Hd & Hlv).
    split; [exact Hst |]. split; [exact Hd |]. cbn.
    rewrite liveb_dequeue. case_decide as Heq; [| exact Hlv].
    subst h0. rewrite (liveb_cancelled _ _ _ Hl Hc) in Hlv. discriminate.
  - exact Hp.
Qed.

Lemma pending_ok_init deadline loop :
  pending_ok (fst (__init__ deadline loop)).
Proof. destruct deadline; cbn; no_handler. Qed.

(** C8.  The invariant [pending_ok] (a handle is kept in
    [_timeout_handler] only by an entered timer that has a deadline,
    and that handle has neither run nor been cancelled) holds of a new
    timer and is kept by every step: entering, exiting (also when the
    exit raises), [update], [shift], [wait], [is_running], their
    resumptions, the loop running or dropping a handle, and time
    passing. *)
Theorem C8_pending_handle_invariant :
  (forall deadline loop, pending_ok (fst (__init__ deadline loop))) /\
  (forall self a self', pending_ok self -> step self a self' -> pending_ok self') /\
  (forall self, pending_ok (fst (_on_timeout self))).
Proof.
  split; [exact pending_ok_init |]. split; [exact pending_ok_step |].
  intros self. cbn. no_handler.
Qed.

Lemma C8_pending_handle_witness :
  pending_ok Sample.ten_entered /\
  pending_ok Sample.ten_fired.
Proof.
  assert (H0 : pending_ok Sample.ten)
    by exact (proj1 C8_pending_handle_invariant (Some 15%float) (Loop.empty 5%float)).
  assert (H1 : pending_ok Sample.ten_entered)
    by exact (proj1 (proj2 C8_pending_handle_invariant) Sample.ten Enter _ H0
                (step_enter Sample.ten)).
  split; [exact H1 |].
  exact (proj1 (proj2 C8_pending_handle_invariant) Sample.ten_entered (Fire 0) _ H1
           (step_fire Sample.ten_entered 0%nat eq_refl)).
Defined.

(** ** The closed state *)

Lemma sole_handle_enter self :
  pending_ok self -> sole_handle self -> sole_handle (fst (__aenter__ self)).
Proof.
  intros Hp Hs. destruct (decide (_state self = INIT)) as [Hi|Hn].
  - rewrite enter_idle by assumption.
    destruct (_deadline self) as [d|] eqn:Hd.
    + rewrite (reschedule_entered (set_state ENTER self) d eq_refl Hd); cbn.
      apply sole_handle_scheduled. exact Hs.
    + rewrite (reschedule_no_deadline (set_state ENTER self) eq_refl Hd); cbn.
      exact Hs.
  - rewrite enter_rejected by assumption. exact Hs.
Qed.

Lemma sole_handle_exit self exc_type :
  pending_ok self -> sole_handle self ->
  sole_handle (fst (__aexit__ exc_type self)).
Proof.
  intros Hp Hs. rewrite exit_result by assumption.
  destruct (_checked self); [| exact Hs].
  intros h Hl; cbn in Hl.
  rewrite (no_live_without_pending _ Hs) in Hl. discriminate.
Qed.

Lemma sole_handle_update self d :
  pending_ok self -> sole_handle self -> sole_handle (fst (update d self)).
Proof.
  intros Hp Hs. destruct (_state self) eqn:Hst.
  - assert (Hh : _timeout_handler self = None)
      by (apply pending_ok_idle; [assumption | congruence]).
    rewrite update_idle by assumption; cbn. exact Hs.
  - rewrite update_entered by assumption; cbn.
    apply sole_handle_scheduled. exact Hs.
  - rewrite (proj1 (update_rejected self d) Hst). exact Hs.
  - rewrite (proj2 (update_rejected self d) Hst). exact Hs.
Qed.

Lemma sole_handle_step self a self' :
  pending_ok self -> sole_handle self -> step self a self' -> sole_handle self'.
Proof.
  intros Hp Hs Hstep.
  destruct Hstep as [self | self exc | self d | self delay | self
                    | self0 on k self Hk _ | self | self0 on k self Hk _
                    | self h Hlive | self h hd Hl Hc | self t' _].
  - apply sole_handle_enter; assumption.
  - apply sole_handle_exit; assumption.
  - apply sole_handle_update; assumption.
  - rewrite shift_unfold.
    destruct (_deadline self); [apply sole_handle_update; assumption | exact Hs].
  - rewrite wait_object. exact Hs.
  - rewrite (wait_continuation _ _ _ Hk). exact Hs.
  - exact Hs.
  - rewrite (is_running_continuation _ _ _ Hk). exact Hs.
  - intros h' Hl'; cbn in Hl'. rewrite liveb_dequeue in Hl'.
    case_decide as Hne; [discriminate |].
    apply Hs in Hl'. apply Hs in Hlive. congruence.
  - intros h' Hl'; cbn in Hl'. rewrite liveb_dequeue in Hl'.
    case_decide as Hne; [discriminate |]. cbn. apply Hs, Hl'.
  - exact Hs.
Qed.

Lemma reachable_invariants self :
  reachable self -> pending_ok self /\ sole_handle self.
Proof.
  induction 1 as [deadline t0 | self a self' _ [Hp Hs] Hstep].
  - split; [apply pending_ok_init |].
    destruct deadline; intros h Hl; cbn in Hl; discriminate.
  - split; [eapply pending_ok_step | eapply sole_handle_step]; eassumption.
Qed.

(* the loop runs the callback on entered timers only *)
Lemma fire_only_entered self h :
  reachable self -> Loop.liveb (_loop self) h = true -> _state self = ENTER.
Proof.
  intros Hr Hl. destruct (reachable_invariants _ Hr) as [Hp Hs].
  apply Hs in Hl. apply Hp in Hl. tauto.
Qed.

Lemma closed_step self a self' :
  reachable self -> step self a self' ->
  _state self = EXIT -> _state self' = EXIT.
Proof.
  intros Hr Hstep Hst.
  destruct (reachable_invariants _ Hr) as [Hp Hs].
  destruct Hstep as [self | self exc | self d | self delay | self
                    | self0 on k self Hk _ | self | self0 on k self Hk _
                    | self h Hlive | self h hd Hl Hc | self t' _].
  - rewrite enter_rejected by congruence. exact Hst.
  - rewrite exit_result by assumption. destruct (_checked self); [reflexivity | exact Hst].
  - rewrite (proj2 (update_rejected self d) Hst). exact Hst.
  - rewrite shift_unfold. destruct (_deadline self); [| exact Hst].
    rewrite (proj2 (update_rejected self _) Hst). exact Hst.
  - rewrite wait_object. exact Hst.
  - rewrite (wait_continuation _ _ _ Hk). exact Hst.
  - exact Hst.
  - rewrite (is_running_continuation _ _ _ Hk). exact Hst.
  - apply (fire_only_entered _ _ Hr) in Hlive. congruence.
  - exact Hst.
  - exact Hst.
Qed.

(** C4, refuted as stated: [_on_timeout] has no guard.  Run on the
    closed timer of the sample it is not a no-op: the state leaves
    [EXIT] for [TIMEOUT] and the event is set. *)
Lemma C4_on_timeout_unguarded :
  _state Sample.ten_closed = EXIT /\
  _event Sample.ten_closed = false /\
  _state (fst (_on_timeout Sample.ten_closed)) = TIMEOUT /\
  _event (fst (_on_timeout Sample.ten_closed)) = true.
Proof. repeat split. Qed.

(** C4, amended.  [_on_timeout] assigns [TIMEOUT] whatever the state
    is.  A closed timer is safe from it because exit cancels the
    pending handle and nothing registers one afterwards: in every state
    the timer and its loop can reach, the loop runs the callback only
    on an entered timer, and no step (entering, exiting, [update],
    [shift], [wait], [is_running], the loop, the clock) takes a timer
    out of [EXIT]. *)
Theorem C4_closed_is_terminal :
  (forall self,
      fst (_on_timeout self)
      = mkTimer (_deadline self) (_loop self) TIMEOUT None true (_checked self)) /\
  (forall self a self',
      reachable self -> step self a self' ->
      (forall h, a = Fire h -> _state self = ENTER /\ _state self' = TIMEOUT) /\
      (_state self = EXIT -> _state self' = EXIT)).
Proof.
  split; [reflexivity |].
  intros self a self' Hr Hstep. split.
  - intros h ->. inversion Hstep as [| | | | | | | | s h' Hlive | |]; subst.
    split; [eapply fire_only_entered; eassumption | reflexivity].
  - eapply closed_step; eassumption.
Qed.

Lemma reachable_ten_entered : reachable Sample.ten_entered.
Proof.
  apply (reachable_step Sample.ten Enter); [| apply step_enter].
  exact (reachable_init (Some 15%float) 5%float).
Qed.

Lemma reachable_ten_closed : reachable Sample.ten_closed.
Proof.
  apply (reachable_step Sample.ten_waited (Exit None)); [| apply step_exit].
  apply (reachable_step Sample.ten_entered Wait); [| apply step_wait].
  exact reachable_ten_entered.
Qed.

Lemma C4_closed_witness :
  (_state Sample.ten_entered = ENTER /\ _state Sample.ten_fired = TIMEOUT) /\
  _state (fst (update 1%float Sample.ten_closed)) = EXIT /\
  _state (fst (__aenter__ Sample.ten_closed)) = EXIT.
Proof.
  split; [| split].
  - exact (proj1 (proj2 C4_closed_is_terminal Sample.ten_entered (Fire 0) _
                    reachable_ten_entered
                    (step_fire Sample.ten_entered 0%nat eq_refl))
             0%nat eq_refl).
  - exact (proj2 (proj2 C4_closed_is_terminal Sample.ten_closed (Update 1%float) _
                    reachable_ten_closed
                    (step_update Sample.ten_closed 1%float))
             eq_refl).
  - exact (proj2 (proj2 C4_closed_is_terminal Sample.ten_closed Enter _
                    reachable_ten_closed (step_enter Sample.ten_closed))
             eq_refl).
Defined.

(** * Further properties of the module *)

(** ** Construction and entry *)

Lemma init_result deadline loop :
  __init__ deadline loop = (mkTimer deadline loop INIT None false false, Ok tt).
Proof. destruct deadline; reflexivity. Qed.


(** X2.  Entering succeeds from the idle state only.  From any other
    state [__aenter__] raises the invalid-state error carrying the
    state's number and changes nothing; a successful entry leaves the
    state [ENTER].  Hence a second entry right after a first one always
    raises, whatever the timer was. *)
Theorem X2_enter_only_when_idle self :
  (_state self = INIT ->
   snd (__aenter__ self) = Ok tt /\ _state (fst (__aenter__ self)) = ENTER) /\
  (_state self <> INIT ->
   __aenter__ self = (self, Raise (InvalidStateError (value (_state self))))) /\
  (exists v, v <> 0 /\
     snd (__aenter__ (fst (__aenter__ self))) = Raise (InvalidStateError v)).
Proof.
  assert (Hidle : _state self = INIT ->
            snd (__aenter__ self) = Ok tt /\ _state (fst (__aenter__ self)) = ENTER).
  { intros Hi. rewrite enter_idle by assumption.
    destruct (_deadline self) as [d|] eqn:Hd.
    - rewrite (reschedule_entered (set_state ENTER self) d eq_refl Hd).
      split; reflexivity.
    - rewrite (reschedule_no_deadline (set_state ENTER self) eq_refl Hd).
      split; reflexivity. }
  split; [exact Hidle |]. split; [apply enter_rejected |].
  destruct (decide (_state self = INIT)) as [Hi|Hn].
  - destruct (Hidle Hi) as [_ Hst].
    exists 1. split; [lia |].
    rewrite (enter_rejected (fst (__aenter__ self))) by congruence.
    rewrite Hst. reflexivity.
  - replace (fst (__aenter__ self)) with self
      by (rewrite (enter_rejected self Hn); reflexivity).
    rewrite (enter_rejected self Hn).
    exists (value (_state self)). split; [| reflexivity].
    destruct (_state self); cbn; [contradiction | lia ..].
Qed.

Lemma X2_enter_witness :
  (snd (__aenter__ Sample.ten) = Ok tt /\
   _state (fst (__aenter__ Sample.ten)) = ENTER) /\
  __aenter__ Sample.ten_closed
  = (Sample.ten_closed, Raise (InvalidStateError 3)).
Proof.
  split.
  - exact (proj1 (X2_enter_only_when_idle Sample.ten) eq_refl).
  - refine (proj1 (proj2 (X2_enter_only_when_idle Sample.ten_closed)) _).
    discriminate.
Defined.

(** X3.  A deadline set while the timer is still idle is only recorded;
    it takes effect at entry.  For an idle timer without a handle,
    [update d] then [__aenter__] both succeed, the first leaves the loop
    untouched, and the entry registers one callback for [d], due as
    [fire_time] says at the time of entry, whatever deadline the timer
    had before. *)
Theorem X3_update_before_enter self d :
  _state self = INIT ->
  _timeout_handler self = None ->
  update d self = (set_deadline (Some d) self, Ok tt) /\
  _loop (fst (update d self)) = _loop self /\
  __aenter__ (fst (update d self))
  = (scheduled d (set_state ENTER self), Ok tt) /\
  Loop.handles (_loop (fst (__aenter__ (fst (update d self)))))
  = Loop.handles (_loop self)
      ++ [Loop.mkHandle (fire_time d (Loop.time (_loop self))) false true].
Proof.
  intros Hi Hh.
  assert (Henter : __aenter__ (set_deadline (Some d) self)
                   = (scheduled d (set_state ENTER self), Ok tt)).
  { rewrite (enter_idle (set_deadline (Some d) self)) by exact Hi.
    rewrite (reschedule_entered (set_state ENTER (set_deadline (Some d) self)) d
               eq_refl eq_refl).
    reflexivity. }
  rewrite (update_idle _ _ Hi Hh).
  change (fst (set_deadline (Some d) self, Ok tt)) with (set_deadline (Some d) self).
  rewrite Henter.
  split; [reflexivity |]. split; [reflexivity |]. split; [reflexivity |].
  unfold scheduled, loop_without_pending; cbn. rewrite Hh. reflexivity.
Qed.

Lemma X3_update_before_enter_witness :
  update 7%float Sample.ten = (set_deadline (Some 7%float) Sample.ten, Ok tt) /\
  Loop.handles (_loop (fst (__aenter__ (fst (update 7%float Sample.ten)))))
  = [Loop.mkHandle (Loop.At 7%float) false true].
Proof.
  pose proof (X3_update_before_enter Sample.ten 7%float eq_refl eq_refl) as H.
  split; [exact (proj1 H) | exact (proj2 (proj2 (proj2 H)))].
Defined.

(** ** What the methods leave alone *)

Lemma enter_frame self :
  _checked (fst (__aenter__ self)) = _checked self /\
  _event (fst (__aenter__ self)) = _event self /\
  _deadline (fst (__aenter__ self)) = _deadline self.
Proof.
  destruct (decide (_state self = INIT)) as [Hi|Hn].
  - rewrite enter_idle by assumption.
    destruct (_deadline self) as [d|] eqn:Hd.
    + rewrite (reschedule_entered (set_state ENTER self) d eq_refl Hd); cbn.
      repeat split; try assumption.
    + rewrite (reschedule_no_deadline (set_state ENTER self) eq_refl Hd); cbn.
      repeat split; try assumption.
  - rewrite enter_rejected by assumption. repeat split.
Qed.

Lemma exit_frame self exc_type :
  _checked (fst (__aexit__ exc_type self)) = _checked self /\
  _event (fst (__aexit__ exc_type self)) = _event self /\
  _deadline (fst (__aexit__ exc_type self)) = _deadline self.
Proof.
  destruct self as [dl l st h ev ck].
  destruct ck, st, h, exc_type as [[]|]; cbn; repeat split.
Qed.

Lemma update_frame self d :
  _checked (fst (update d self)) = _checked self /\
  _event (fst (update d self)) = _event self /\
  _state (fst (update d self)) = _state self.
Proof.
  destruct self as [dl l st h ev ck].
  destruct st, h; cbn; unfold Loop.time; cbn;
    try (destruct (d <=? Loop.now l)%float; cbn); repeat split.
Qed.

Lemma shift_frame self delay :
  _checked (fst (shift delay self)) = _checked self /\
  _event (fst (shift delay self)) = _event self /\
  _state (fst (shift delay self)) = _state self.
Proof.
  rewrite shift_unfold. destruct (_deadline self); [apply update_frame |].
  repeat split.
Qed.

Lemma update_deadline self d :
  is_Some (_deadline self) -> is_Some (_deadline (fst (update d self))).
Proof.
  intros Hd. destruct self as [dl l st h ev ck].
  destruct st, h; cbn in *; unfold Loop.time; cbn;
    try (destruct (d <=? Loop.now l)%float; cbn); eauto.
Qed.

(** ** The event and the state *)

Lemma event_ok_step self a self' :
  pending_ok self -> sole_handle self -> event_ok self ->
  step self a self' -> event_ok self'.
Proof.
  intros Hp Hs [He1 He2] Hstep.
  destruct Hstep as [self | self exc | self d | self delay | self
                    | self0 on k self Hk _ | self | self0 on k self Hk _
                    | self h Hlive | self h hd Hl Hc | self t' _].
  - destruct (enter_frame self) as (_ & Hev & Hdl).
    destruct (decide (_state self = INIT)) as [Hi|Hn].
    + assert (Hst : _state (fst (__aenter__ self)) = ENTER).
      { rewrite enter_idle by assumption.
        destruct (_deadline self) as [d|] eqn:Hd.
        - rewrite (reschedule_entered (set_state ENTER self) d eq_refl Hd).
          reflexivity.
        - rewrite (reschedule_no_deadline (set_state ENTER self) eq_refl Hd).
          reflexivity. }
      split; [congruence |]. rewrite Hev. intros Hset.
      destruct (He2 Hset) as [[?|?] _]; congruence.
    + rewrite enter_rejected by assumption. split; assumption.
  - rewrite exit_result by assumption.
    destruct (_checked self); [| split; assumption].
    split; [cbn; discriminate |]. cbn. intros Hset.
    split; [right; reflexivity | apply He2, Hset].
  - destruct (update_frame self d) as (_ & Hev & Hst).
    split; rewrite Hev, Hst; [exact He1 |].
    intros Hset. destruct (He2 Hset) as [Hor Hd].
    split; [exact Hor | apply update_deadline, Hd].
  - destruct (shift_frame self delay) as (_ & Hev & Hst).
    split; rewrite Hev, Hst; [exact He1 |].
    intros Hset. destruct (He2 Hset) as [Hor Hd].
    split; [exact Hor |]. rewrite shift_unfold.
    destruct (_deadline self) eqn:Hdl; [| destruct Hd; discriminate].
    apply update_deadline. rewrite Hdl. eauto.
  - rewrite wait_object. split; assumption.
  - rewrite (wait_continuation _ _ _ Hk). split; assumption.
  - split; assumption.
  - rewrite (is_running_continuation _ _ _ Hk). split; assumption.
  - cbn. split; [reflexivity |]. intros _.
    split; [left; reflexivity |].
    apply Hs in Hlive. apply Hp in Hlive. tauto.
  - split; assumption.
  - split; assumption.
Qed.

Lemma reachable_event_ok self : reachable self -> event_ok self.
Proof.
  induction 1 as [deadline t0 | self a self' Hr IH Hstep].
  - rewrite init_result. split; cbn; discriminate.
  - destruct (reachable_invariants _ Hr) as [Hp Hs].
    eapply event_ok_step; eassumption.
Qed.

Lemma reachable_ten_fired : reachable Sample.ten_fired.
Proof.
  apply (reachable_step Sample.ten_entered (Fire 0)).
  - exact reachable_ten_entered.
  - exact (step_fire Sample.ten_entered 0%nat eq_refl).
Qed.

(** X4.  In every reachable state the event tells expiry: it is set as
    soon as the state is [TIMEOUT], and when it is set the timer has
    expired (state [TIMEOUT], or [EXIT] if closed since) and had a
    deadline.  So [wait] on an idle or entered timer always suspends,
    and on an expired one returns [True] at once. *)
Theorem X4_event_tells_expiry self :
  reachable self ->
  (_state self = TIMEOUT -> snd (wait self) = Done (Ok true)) /\
  (_state self = INIT \/ _state self = ENTER ->
   _event self = false /\
   exists k, snd (wait self) = Suspended UntilEvent k) /\
  (_event self = true ->
   (_state self = TIMEOUT \/ _state self = EXIT) /\ is_Some (_deadline self)).
Proof.
  intros Hr. destruct (reachable_event_ok _ Hr) as [He1 He2].
  split; [| split; [| exact He2]].
  - intros Hst. unfold wait, event_wait; cbn. rewrite (He1 Hst). reflexivity.
  - intros Hst.
    assert (Hev : _event self = false).
    { destruct (_event self) eqn:Hev; [| reflexivity].
      destruct (He2 eq_refl) as [[?|?] _]; destruct Hst; congruence. }
    split; [exact Hev |].
    unfold wait, event_wait; cbn. rewrite Hev. eexists. reflexivity.
Qed.

Lemma X4_event_witness :
  snd (wait Sample.ten_fired) = Done (Ok true) /\
  _event Sample.ten_entered = false.
Proof.
  split.
  - exact (proj1 (X4_event_tells_expiry Sample.ten_fired reachable_ten_fired)
             eq_refl).
  - exact (proj1 (proj1 (proj2 (X4_event_tells_expiry Sample.ten_entered
                                 reachable_ten_entered))
                    (or_intror eq_refl))).
Defined.

Lemma enter_state_idle self :
  _state self = INIT -> _state (fst (__aenter__ self)) = ENTER.
Proof.
  intros Hi. rewrite enter_idle by assumption.
  destruct (_deadline self) as [d|] eqn:Hd.
  - rewrite (reschedule_entered (set_state ENTER self) d eq_refl Hd).
    reflexivity.
  - rewrite (reschedule_no_deadline (set_state ENTER self) eq_refl Hd).
    reflexivity.
Qed.

Lemma value_bounds s : 0 <= value s <= 3.
Proof. destruct s; cbn; lia. Qed.

(** X5.  The state only moves forward.  Along every step from a
    reachable state the number of the state ([INIT] 0, [ENTER] 1,
    [TIMEOUT] 2, [EXIT] 3) does not decrease, and it changes only by
    an entry, an exit or the loop running the callback: [update],
    [shift], [wait] and [is_running] never change the state. *)
Theorem X5_state_only_moves_forward self a self' :
  reachable self -> step self a self' ->
  value (_state self) <= value (_state self') /\
  (_state self' <> _state self ->
   a = Enter \/ (exists exc_type, a = Exit exc_type) \/ (exists h, a = Fire h)).
Proof.
  intros Hr Hstep. destruct (reachable_invariants _ Hr) as [Hp Hs].
  destruct Hstep as [self | self exc | self d | self delay | self
                    | self0 on k self Hk _ | self | self0 on k self Hk _
                    | self h Hlive | self h hd Hl Hc | self t' _].
  - split; [| auto].
    destruct (decide (_state self = INIT)) as [Hi|Hn].
    + rewrite (enter_state_idle _ Hi), Hi. cbn. lia.
    + rewrite enter_rejected by assumption. cbn. lia.
  - split; [| eauto].
    rewrite exit_result by assumption.
    destruct (_checked self); cbn; [apply value_bounds | lia].
  - destruct (update_frame self d) as (_ & _ & Hst). rewrite Hst.
    split; [lia | congruence].
  - destruct (shift_frame self delay) as (_ & _ & Hst). rewrite Hst.
    split; [lia | congruence].
  - rewrite wait_object. cbn. split; [lia | congruence].
  - rewrite (wait_continuation _ _ _ Hk). split; [lia | congruence].
  - cbn. split; [lia | congruence].
  - rewrite (is_running_continuation _ _ _ Hk). split; [lia | congruence].
  - split; [| eauto]. rewrite (fire_only_entered _ _ Hr Hlive). cbn. lia.
  - cbn. split; [lia | congruence].
  - cbn. split; [lia | congruence].
Qed.

Lemma X5_state_witness :
  value (_state Sample.ten_entered) <= value (_state Sample.ten_fired) /\
  value (_state Sample.ten_waited) <= value (_state Sample.ten_closed).
Proof.
  split.
  - exact (proj1 (X5_state_only_moves_forward Sample.ten_entered (Fire 0) _
                    reachable_ten_entered
                    (step_fire Sample.ten_entered 0%nat eq_refl))).
  - exact (proj1 (X5_state_only_moves_forward Sample.ten_waited (Exit None) _
                    (reachable_step _ _ _ reachable_ten_entered
                       (step_wait Sample.ten_entered))
                    (step_exit Sample.ten_waited None))).
Defined.

(** ** The loop's side *)

(** X6.  At most one callback of the timer is outstanding.  In every
    reachable state two handles the loop would still run are the same
    handle, it is the one kept in [_timeout_handler], and the timer is
    entered with a deadline. *)
Theorem X6_at_most_one_callback self h1 h2 :
  reachable self ->
  Loop.liveb (_loop self) h1 = true ->
  Loop.liveb (_loop self) h2 = true ->
  h1 = h2 /\ _timeout_handler self = Some h1 /\
  _state self = ENTER /\ is_Some (_deadline self).
Proof.
  intros Hr H1 H2. destruct (reachable_invariants _ Hr) as [Hp Hs].
  pose proof (Hs _ H1) as E1. pose proof (Hs _ H2) as E2.
  destruct (Hp _ E1) as (Hst & Hd & _).
  split; [congruence |]. split; [exact E1 |]. split; assumption.
Qed.

Lemma X6_one_callback_witness :
  0%nat = 0%nat /\ _timeout_handler Sample.ten_entered = Some 0%nat /\
  _state Sample.ten_entered = ENTER /\ is_Some (_deadline Sample.ten_entered).
Proof.
  exact (X6_at_most_one_callback Sample.ten_entered 0 0 reachable_ten_entered
           eq_refl eq_refl).
Defined.

Lemma exit_outcome self exc_type :
  snd (__aexit__ exc_type self)
  = if _checked self then Ok tt else Raise UsageError.
Proof.
  destruct self as [dl l st h ev ck].
  destruct ck, st, h, exc_type as [[]|]; reflexivity.
Qed.

(** X7.  A successful exit leaves nothing behind on the loop.  For a
    reachable, observed timer [__aexit__] returns normally, cancels the
    pending handle if there is one (the loop's handles are otherwise
    untouched), and afterwards the loop holds no callback of the timer
    that it would still run: a closed timer cannot fire. *)
Theorem X7_exit_cancels_callback self exc_type :
  reachable self -> _checked self = true ->
  __aexit__ exc_type self
  = (set_timeout_handler None
       (set_loop (loop_without_pending self) (set_state EXIT self)), Ok tt) /\
  (forall h, Loop.liveb (_loop (fst (__aexit__ exc_type self))) h = false) /\
  (forall a self', step (fst (__aexit__ exc_type self)) a self' ->
                   forall h, a <> Fire h).
Proof.
  intros Hr Hck. destruct (reachable_invariants _ Hr) as [Hp Hs].
  assert (Hres : __aexit__ exc_type self
                 = (set_timeout_handler None
                      (set_loop (loop_without_pending self) (set_state EXIT self)),
                    Ok tt)).
  { rewrite (surjective_pairing (__aexit__ exc_type self)).
    rewrite exit_result, exit_outcome, Hck by assumption. reflexivity. }
  assert (Hdead : forall h, Loop.liveb (_loop (fst (__aexit__ exc_type self))) h
                            = false).
  { intros h. rewrite Hres. cbn. apply no_live_without_pending, Hs. }
  split; [exact Hres |]. split; [exact Hdead |].
  intros a self' Hstep h ->.
  inversion Hstep as [| | | | | | | | s h' Hlive | |]; subst.
  rewrite Hdead in Hlive. discriminate.
Qed.

Lemma X7_exit_witness :
  Loop.liveb (_loop Sample.ten_closed) 0 = false.
Proof.
  exact (proj1 (proj2 (X7_exit_cancels_callback Sample.ten_waited None
                         (reachable_step _ _ _ reachable_ten_entered
                            (step_wait Sample.ten_entered))
                         eq_refl)) 0%nat).
Defined.

(** X8.  An exit that fails is no exit.  For a reachable timer that was
    never waited on, [__aexit__] raises the usage error and leaves the
    whole object as it was, for any exception in flight: the state, the
    pending handle and the loop are untouched, so the callback is still
    due.  Waiting once and exiting again then succeeds. *)
Theorem X8_failed_exit_changes_nothing self exc_type :
  reachable self -> _checked self = false ->
  __aexit__ exc_type self = (self, Raise UsageError) /\
  forall exc_type',
    snd (__aexit__ exc_type' (fst (wait (fst (__aexit__ exc_type self))))) = Ok tt.
Proof.
  intros Hr Hck. destruct (reachable_invariants _ Hr) as [Hp Hs].
  assert (Hres : __aexit__ exc_type self = (self, Raise UsageError)).
  { rewrite (surjective_pairing (__aexit__ exc_type self)).
    rewrite exit_result, exit_outcome, Hck by assumption. reflexivity. }
  split; [exact Hres |].
  intros exc'. rewrite Hres, exit_outcome, wait_object. reflexivity.
Qed.

Lemma X8_failed_exit_witness :
  __aexit__ (Some CancelledError) Sample.ten_entered
  = (Sample.ten_entered, Raise UsageError).
Proof.
  exact (proj1 (X8_failed_exit_changes_nothing Sample.ten_entered
                  (Some CancelledError) reachable_ten_entered eq_refl)).
Defined.

(** X9.  A timer without a deadline never fires on its own.  In every
    reachable state with [_deadline] unset the event is unset, the
    state is not [TIMEOUT], no handle is held and the loop has no
    callback to run; no step can be the callback, and as long as
    [update] is not called the deadline stays unset ([shift] raises). *)
Theorem X9_no_deadline_never_fires self :
  reachable self -> _deadline self = None ->
  _event self = false /\ _state self <> TIMEOUT /\
  _timeout_handler self = None /\
  (forall h, Loop.liveb (_loop self) h = false) /\
  (forall a self', step self a self' ->
     (forall h, a <> Fire h) /\
     ((forall d, a <> Update d) -> _deadline self' = None)).
Proof.
  intros Hr Hd.
  destruct (reachable_invariants _ Hr) as [Hp Hs].
  destruct (reachable_event_ok _ Hr) as [He1 He2].
  assert (Hev : _event self = false).
  { destruct (_event self); [| reflexivity].
    destruct (He2 eq_refl) as [_ [d Hsome]]. congruence. }
  assert (Hh : _timeout_handler self = None).
  { destruct (_timeout_handler self) as [h|] eqn:Hh; [| reflexivity].
    destruct (Hp h Hh) as (_ & [d Hsome] & _). congruence. }
  assert (Hdead : forall h, Loop.liveb (_loop self) h = false).
  { intros h. destruct (Loop.liveb (_loop self) h) eqn:Hl; [| reflexivity].
    apply Hs in Hl. congruence. }
  split; [exact Hev |].
  split; [intros Hst; apply He1 in Hst; congruence |].
  split; [exact Hh |]. split; [exact Hdead |].
  intros a self' Hstep.
  destruct Hstep as [self | self exc | self d | self delay | self
                    | self0 on k self Hk _ | self | self0 on k self Hk _
                    | self h Hlive | self h hd Hl Hc | self t' _].
  - split; [discriminate |]. intros _.
    destruct (enter_frame self) as (_ & _ & Hdl). congruence.
  - split; [discriminate |]. intros _.
    destruct (exit_frame self exc) as (_ & _ & Hdl). congruence.
  - split; [discriminate |]. intros Hno. destruct (Hno d). reflexivity.
  - split; [discriminate |]. intros _.
    rewrite shift_unfold, Hd. exact Hd.
  - split; [discriminate |]. intros _. rewrite wait_object. exact Hd.
  - split; [discriminate |]. intros _.
    rewrite (wait_continuation _ _ _ Hk). exact Hd.
  - split; [discriminate |]. intros _. exact Hd.
  - split; [discriminate |]. intros _.
    rewrite (is_running_continuation _ _ _ Hk). exact Hd.
  - rewrite Hdead in Hlive. discriminate.
  - split; [discriminate |]. intros _. exact Hd.
  - split; [discriminate |]. intros _. exact Hd.
Qed.

Lemma reachable_never_entered : reachable Sample.never_entered.
Proof.
  apply (reachable_step Sample.never Enter); [| apply step_enter].
  exact (reachable_init None 0%float).
Qed.

Lemma X9_no_deadline_witness :
  _event Sample.never_entered = false /\
  _timeout_handler Sample.never_entered = None.
Proof.
  pose proof (X9_no_deadline_never_fires Sample.never_entered
                reachable_never_entered eq_refl) as H.
  split; [exact (proj1 H) | exact (proj1 (proj2 (proj2 H)))].
Defined.

Lemma armed_scheduled d self : armed (scheduled d self).
Proof.
  intros _ d' Hd'. cbn in Hd'. injection Hd' as <-.
  eexists _, _. split; [reflexivity |].
  split; [apply scheduled_lookup_new |]. cbn.
  split; [reflexivity |]. split; [reflexivity |].
  unfold fire_time. destruct (_ <=? _)%float; auto.
Qed.

Lemma armed_step self a self' :
  pending_ok self -> armed self -> step self a self' -> armed self'.
Proof.
  intros Hp Ha Hstep.
  destruct Hstep as [self | self exc | self d | self delay | self
                    | self0 on k self Hk _ | self | self0 on k self Hk _
                    | self h Hlive | self h hd Hl Hc | self t' _].
  - destruct (decide (_state self = INIT)) as [Hi|Hn].
    + rewrite enter_idle by assumption.
      destruct (_deadline self) as [d|] eqn:Hd.
      * rewrite (reschedule_entered (set_state ENTER self) d eq_refl Hd).
        apply armed_scheduled.
      * rewrite (reschedule_no_deadline (set_state ENTER self) eq_refl Hd).
        intros _ d' Hd'. cbn in Hd'. congruence.
    + rewrite enter_rejected by assumption. exact Ha.
  - rewrite exit_result by assumption.
    destruct (_checked self); [| exact Ha].
    intros Hst. cbn in Hst. discriminate.
  - destruct (decide (_state self = ENTER)) as [He|Hn].
    + rewrite update_entered by assumption. apply armed_scheduled.
    + destruct (update_frame self d) as (_ & _ & Hst).
      intros Hst'. congruence.
  - rewrite shift_unfold. destruct (_deadline self) as [d|] eqn:Hd; [| exact Ha].
    destruct (decide (_state self = ENTER)) as [He|Hn].
    + rewrite update_entered by assumption. apply armed_scheduled.
    + destruct (update_frame self (d + delay)%float) as (_ & _ & Hst).
      intros Hst'. congruence.
  - rewrite wait_object. exact Ha.
  - rewrite (wait_continuation _ _ _ Hk). exact Ha.
  - exact Ha.
  - rewrite (is_running_continuation _ _ _ Hk). exact Ha.
  - intros Hst. cbn in Hst. discriminate.
  - intros Hst d Hd. cbn in Hst, Hd.
    destruct (Ha Hst d Hd) as (h0 & hd0 & Hh & Hl0 & Hq & Hc0 & Hw).
    exists h0, hd0. split; [exact Hh |]. split; [| auto].
    cbn. rewrite list_lookup_alter_ne; [exact Hl0 |].
    intros ->. congruence.
  - exact Ha.
Qed.

Lemma reachable_armed self : reachable self -> armed self.
Proof.
  induction 1 as [deadline t0 | self a self' Hr IH Hstep].
  - rewrite init_result. intros Hst. cbn in Hst. discriminate.
  - destruct (reachable_invariants _ Hr) as [Hp _].
    eapply armed_step; eassumption.
Qed.

(** X10.  An entered timer with a deadline always has its callback on
    the loop.  In every reachable state with state [ENTER] and deadline
    [d], [_timeout_handler] names a handle that is queued and not
    cancelled, and that handle was registered for the current deadline:
    with [call_soon], or with [call_at] at exactly [d].  The callback
    is never lost and never left at a stale deadline. *)
Theorem X10_entered_timer_is_armed self d :
  reachable self -> _state self = ENTER -> _deadline self = Some d ->
  exists h hd,
    _timeout_handler self = Some h /\
    Loop.handles (_loop self) !! h = Some hd /\
    Loop.liveb (_loop self) h = true /\
    (Loop.when hd = Loop.Soon \/ Loop.when hd = Loop.At d).
Proof.
  intros Hr Hst Hd.
  destruct (reachable_armed _ Hr Hst d Hd) as (h & hd & Hh & Hl & Hq & Hc & Hw).
  exists h, hd. split; [exact Hh |]. split; [exact Hl |]. split; [| exact Hw].
  unfold Loop.liveb. rewrite Hl, Hq, Hc. reflexivity.
Qed.

Lemma X10_armed_witness :
  exists h hd,
    _timeout_handler Sample.ten_entered = Some h /\
    Loop.handles (_loop Sample.ten_entered) !! h = Some hd /\
    Loop.liveb (_loop Sample.ten_entered) h = true /\
    (Loop.when hd = Loop.Soon \/ Loop.when hd = Loop.At 15%float).
Proof.
  exact (X10_entered_timer_is_armed Sample.ten_entered 15%float
           reachable_ten_entered eq_refl eq_refl).
Defined.

(** X11.  [update] replaces the callback, it does not add one.  On a
    reachable entered timer [update d] succeeds, and afterwards the
    loop would run exactly one handle: the new one, registered for [d]
    and kept in [_timeout_handler]; every handle registered before is
    dead.  The same holds for [shift] at the shifted deadline. *)
Theorem X11_update_replaces_callback self d :
  reachable self -> _state self = ENTER ->
  snd (update d self) = Ok tt /\
  _deadline (fst (update d self)) = Some d /\
  _timeout_handler (fst (update d self))
  = Some (length (Loop.handles (_loop self))) /\
  Loop.handles (_loop (fst (update d self))) !! length (Loop.handles (_loop self))
  = Some (Loop.mkHandle (fire_time d (Loop.time (_loop self))) false true) /\
  (forall h, Loop.liveb (_loop (fst (update d self))) h = true <->
             h = length (Loop.handles (_loop self))) /\
  (forall delay d0, _deadline self = Some d0 ->
     shift delay self = update (d0 + delay)%float self).
Proof.
  intros Hr Hst. destruct (reachable_invariants _ Hr) as [Hp Hs].
  rewrite (update_entered _ _ Hst).
  split; [reflexivity |]. split; [reflexivity |]. split; [reflexivity |].
  split; [| split].
  - change (fst (scheduled d self, Ok tt)) with (scheduled d self).
    rewrite scheduled_lookup_new, loop_without_pending_now. reflexivity.
  - intros h. change (fst (scheduled d self, Ok tt)) with (scheduled d self).
    rewrite scheduled_liveb. case_decide as Hh.
    + split; auto.
    + rewrite (no_live_without_pending _ Hs). split; [discriminate | contradiction].
  - intros delay d0 Hd0. rewrite shift_unfold, Hd0. reflexivity.
Qed.

Lemma X11_update_witness :
  snd (update 20%float Sample.ten_entered) = Ok tt /\
  _timeout_handler (fst (update 20%float Sample.ten_entered)) = Some 1%nat.
Proof.
  pose proof (X11_update_replaces_callback Sample.ten_entered 20%float
                reachable_ten_entered eq_refl) as H.
  split; [exact (proj1 H) | exact (proj1 (proj2 (proj2 H)))].
Defined.

(** X12.  Only [wait] marks the timer as observed.  Along every step
    [_checked] is what it was, except that a call of [wait] sets it;
    no step ever resets it, and neither [is_running] nor the firing of
    the timer sets it. *)
Theorem X12_only_wait_marks_checked self a self' :
  step self a self' ->
  _checked self' = match a with Wait => true | _ => _checked self end.
Proof.
  intros Hstep.
  destruct Hstep as [self | self exc | self d | self delay | self
                    | self0 on k self Hk _ | self | self0 on k self Hk _
                    | self h Hlive | self h hd Hl Hc | self t' _].
  - apply enter_frame.
  - apply exit_frame.
  - apply update_frame.
  - apply shift_frame.
  - rewrite wait_object. reflexivity.
  - rewrite (wait_continuation _ _ _ Hk). reflexivity.
  - reflexivity.
  - rewrite (is_running_continuation _ _ _ Hk). reflexivity.
  - reflexivity.
  - reflexivity.
  - reflexivity.
Qed.

Lemma X12_checked_witness :
  _checked Sample.ten_fired = false /\ _checked Sample.ten_waited = true.
Proof.
  split.
  - exact (X12_only_wait_marks_checked Sample.ten_entered (Fire 0) _
             (step_fire Sample.ten_entered 0%nat eq_refl)).
  - exact (X12_only_wait_marks_checked Sample.ten_entered Wait _
             (step_wait Sample.ten_entered)).
Defined.

(** X13.  [_reject] never raises, cancels the pending handle if there
    is one and forgets it; the other handles of the loop are not
    touched.  Calling it again changes nothing. *)
Theorem X13_reject_cancels_and_forgets self :
  _reject self
  = (set_timeout_handler None (set_loop (loop_without_pending self) self), Ok tt) /\
  (forall h, _timeout_handler self = Some h ->
     Loop.liveb (_loop (fst (_reject self))) h = false) /\
  (forall h, _timeout_handler self <> Some h ->
     Loop.liveb (_loop (fst (_reject self))) h = Loop.liveb (_loop self) h) /\
  _reject (fst (_reject self)) = (fst (_reject self), Ok tt).
Proof.
  assert (Hres : _reject self
                 = (set_timeout_handler None
                      (set_loop (loop_without_pending self) self), Ok tt)).
  { destruct self as [dl l st h ev ck]. destruct h; reflexivity. }
  rewrite Hres. split; [reflexivity |].
  unfold loop_without_pending; cbn. split; [| split].
  - intros h ->. rewrite liveb_cancel. case_decide; [reflexivity | contradiction].
  - intros h Hne. destruct (_timeout_handler self) as [h0|]; [| reflexivity].
    rewrite liveb_cancel. case_decide; [congruence | reflexivity].
  - reflexivity.
Qed.

Lemma X13_reject_witness :
  Loop.liveb (_loop (fst (_reject Sample.ten_entered))) 0 = false.
Proof.
  exact (proj1 (proj2 (X13_reject_cancels_and_forgets Sample.ten_entered))
           0%nat eq_refl).
Defined.

(** X14.  The timer fires at most once.  From a reachable state in
    which the event is set, every step leaves the event set, no step is
    the callback running again, and the loop holds no callback of the
    timer that it would still run. *)
Theorem X14_fires_at_most_once self a self' :
  reachable self -> _event self = true -> step self a self' ->
  _event self' = true /\ (forall h, a <> Fire h) /\
  (forall h, Loop.liveb (_loop self') h = false).
Proof.
  intros Hr Hev Hstep.
  assert (Hdead : forall s, reachable s -> _event s = true ->
                            forall h, Loop.liveb (_loop s) h = false).
  { intros s Hrs Hes h.
    destruct (Loop.liveb (_loop s) h) eqn:Hl; [| reflexivity].
    pose proof (fire_only_entered _ _ Hrs Hl) as Hst.
    destruct (reachable_event_ok _ Hrs) as [_ He2].
    destruct (He2 Hes) as [[?|?] _]; congruence. }
  assert (Hev' : _event self' = true).
  { destruct Hstep as [self | self exc | self d | self delay | self
                      | self0 on k self Hk _ | self | self0 on k self Hk _
                      | self h Hlive | self h hd Hl Hc | self t' _].
    - destruct (enter_frame self) as (_ & E & _). congruence.
    - destruct (exit_frame self exc) as (_ & E & _). congruence.
    - destruct (update_frame self d) as (_ & E & _). congruence.
    - destruct (shift_frame self delay) as (_ & E & _). congruence.
    - rewrite wait_object. exact Hev.
    - rewrite (wait_continuation _ _ _ Hk). exact Hev.
    - exact Hev.
    - rewrite (is_running_continuation _ _ _ Hk). exact Hev.
    - reflexivity.
    - exact Hev.
    - exact Hev. }
  split; [exact Hev' |]. split.
  - intros h ->. inversion Hstep as [| | | | | | | | s h' Hlive | |]; subst.
    rewrite (Hdead _ Hr Hev) in Hlive. discriminate.
  - apply Hdead; [| exact Hev'].
    eapply reachable_step; eassumption.
Qed.

Lemma X14_fires_once_witness :
  _event (fst (__aexit__ None Sample.ten_fired)) = true /\
  Loop.liveb (_loop (fst (__aexit__ None Sample.ten_fired))) 0 = false.
Proof.
  pose proof (X14_fires_at_most_once Sample.ten_fired (Exit None) _
                reachable_ten_fired eq_refl
                (step_exit Sample.ten_fired None)) as H.
  split; [exact (proj1 H) | exact (proj2 (proj2 H) 0%nat)].
Defined.

(** X15.  [__aexit__] does not ask whether the scope was entered.  On
    an idle timer that was waited on it returns normally and closes the
    timer without touching the loop; the timer can then no longer be
    entered: [__aenter__] raises the invalid-state error of state 3. *)
Theorem X15_exit_without_enter self exc_type :
  _state self = INIT -> _timeout_handler self = None -> _checked self = true ->
  __aexit__ exc_type self = (set_state EXIT self, Ok tt) /\
  __aenter__ (fst (__aexit__ exc_type self))
  = (set_state EXIT self, Raise (InvalidStateError 3)).
Proof.
  intros Hst Hh Hck.
  assert (Hres : __aexit__ exc_type self = (set_state EXIT self, Ok tt)).
  { destruct self as [dl l st h ev ck]; cbn in *; subst.
    destruct exc_type as [[]|]; reflexivity. }
  rewrite Hres. split; [reflexivity |].
  apply (enter_rejected (set_state EXIT self)). discriminate.
Qed.

Lemma X15_exit_without_enter_witness :
  __aexit__ None (fst (wait Sample.ten))
  = (set_state EXIT (fst (wait Sample.ten)), Ok tt).
Proof.
  exact (proj1 (X15_exit_without_enter (fst (wait Sample.ten)) None
                  eq_refl eq_refl eq_refl)).
Defined.
